(** * ydbops: restart options and the storage baremetal restarter

    A shallow embedding of [pkg/options/restart.go] (package [options]) and of
    the storage baremetal restarter (package [restarters]) together with the
    properties the specification states about them.

    Go strings are byte sequences and are modelled by [string]; Go's [int] is
    taken at its 64-bit width ([strconv.IntSize = 64]), the width on the
    platforms the tool is built for; fixed-width arithmetic is written out on
    [Z] with its wrap-around. *)

From Stdlib Require Import ZArith List String Ascii Bool Lia.
Import ListNotations.

Local Open Scope string_scope.
Local Open Scope list_scope.

(** ** Go values shared by both packages *)

(** A Go [error] value, kept structured rather than rendered: [ErrorsNew] is
    [errors.New], [Errorf] is [fmt.Errorf] with its format string and
    arguments, [NumError] is [*strconv.NumError], [EscapeError],
    [InvalidHostError] and [URLError] are the error types of [net/url],
    [ExecError] is an error handed back by [os/exec] and [OtherError] any
    error of a collaborator that is not modelled further. *)
Inductive error : Type :=
| ErrorsNew (msg : string)
| Errorf (format : string) (args : list fmtArg)
| NumError (func num : string) (err : error)
| EscapeError (s : string)
| InvalidHostError (s : string)
| URLError (op url : string) (err : error)
| ExecError (msg : string)
| OtherError (msg : string)
with fmtArg : Type :=
| ArgS (s : string)
| ArgD (n : Z)
| ArgE (e : error).

(** [(T, error)] results: exactly one of the two is meaningful. *)
Inductive result (A : Type) : Type :=
| Ok (a : A)
| Err (e : error).
Arguments Ok {A} a.
Arguments Err {A} e.

Definition isOk {A : Type} (r : result A) : bool :=
  match r with Ok _ => true | Err _ => false end.

Definition isErr {A : Type} (r : result A) : bool := negb (isOk r).

(** The [error] half of a [(T, error)] pair: [None] is Go's [nil]. *)
Definition errOf {A : Type} (r : result A) : option error :=
  match r with Ok _ => None | Err e => Some e end.

(** ** Package restarters *)
Module Restarters.

(** [Ydb_Maintenance.Node], restricted to the fields the restarters read: the
    node id, the host and the [Type] oneof (storage or dynamic with tenant). *)
Inductive NodeType : Type :=
| Storage
| Dynamic (tenant : string).

Record Node : Type := mkNode {
  NodeId : Z;
  Host : string;
  Type_ : NodeType
}.

(** [StorageBaremetalOpts] with its embedded [baremetalOpts]: the two fields
    [RestartNode] reads. *)
Record StorageBaremetalOpts : Type := mkOpts {
  sshArgs : list string;
  kikimrStorageUnit : bool
}.

Record StorageBaremetalRestarter : Type := mkRestarter {
  Opts : StorageBaremetalOpts
}.

Definition defaultStorageSystemdUnit : string := "ydb-server-storage.service".
Definition internalStorageSystemdUnit : string := "kikimr".

Definition isSshCommand (arg : string) : bool :=
  (arg =? "ssh") || (arg =? "pssh") || (arg =? "nssh").

(** The [for] loop of [stripCommandFromArgs] over the rest of [args], with the
    two variables it updates. *)
Fixpoint stripLoop (args : list string) (command : string)
    (remainingSshArgs : list string) : string * list string :=
  match args with
  | [] => (command, remainingSshArgs)
  | arg :: rest =>
      if isSshCommand arg
      then stripLoop rest arg remainingSshArgs
      else stripLoop rest command (remainingSshArgs ++ [arg])
  end.

Definition stripCommandFromArgs (args : list string) : string * list string :=
  stripLoop args "ssh" [].

(** [exec.Command(name, arg...)]: the program and its argument vector. *)
Record Cmd : Type := mkCmd {
  Path : string;
  Args : list string
}.

(** What the operating system makes of a launched command. *)
Inductive ProcResult : Type :=
| StartFails (msg : string)
| WaitFails (msg : string)
| Exited.

(** [fmt.Sprintf] of the remote command with [%s] replaced by the unit. *)
Definition remoteRestartCommand (unitName : string) : string :=
  "(test -x /bin/systemctl && sudo systemctl restart " ++ unitName ++ ")".

(** The [switch sshCommand] of [restartNodeBySystemdUnit], which completes
    [fullSSHArgs] or gives up. *)
Definition fullSSHArgsFor (sshCommand : string) (remainingSshArgs : list string)
    (host command : string) : result (list string) :=
  let fullSSHArgs := ["run"] ++ remainingSshArgs in
  if sshCommand =? "ssh" then
    Ok (fullSSHArgs ++ [host; command])
  else if (sshCommand =? "nssh") || (sshCommand =? "pssh") then
    Ok (fullSSHArgs ++ [command; host])
  else
    Err (Errorf "Supported ssh commands: ssh, pssh, nssh. Specified: %s"
           [ArgS sshCommand]).

Section Exec.

(** The environment: how a started process ends. *)
Variable os_exec : Cmd -> ProcResult.

(** [cmd.Start()] and [cmd.Wait()] with their two early returns: the
    commands that were started, in order, and the error returned.  The two
    goroutines that copy the pipes into the logger leave no trace here. *)
Definition startAndWait (cmd : Cmd) : list Cmd * option error :=
  match os_exec cmd with
  | StartFails msg => ([], Some (ExecError msg))
  | WaitFails msg => ([cmd], Some (ExecError msg))
  | Exited => ([cmd], None)
  end.

(** [restartNodeBySystemdUnit] after the call to [stripCommandFromArgs]. *)
Definition restartWith (sshCommand : string) (remainingSshArgs : list string)
    (node : Node) (unitName : string) : list Cmd * option error :=
  match fullSSHArgsFor sshCommand remainingSshArgs (Host node)
          (remoteRestartCommand unitName) with
  | Err e => ([], Some e)
  | Ok fullSSHArgs => startAndWait (mkCmd sshCommand fullSSHArgs)
  end.

Definition restartNodeBySystemdUnit (node : Node) (unitName : string)
    (sshArgs : list string) : list Cmd * option error :=
  let '(sshCommand, remainingSshArgs) := stripCommandFromArgs sshArgs in
  restartWith sshCommand remainingSshArgs node unitName.

Definition systemdUnitName (r : StorageBaremetalRestarter) : string :=
  if kikimrStorageUnit (Opts r)
  then internalStorageSystemdUnit
  else defaultStorageSystemdUnit.

Definition RestartNode (r : StorageBaremetalRestarter) (node : Node)
    : list Cmd * option error :=
  restartNodeBySystemdUnit node (systemdUnitName r) (sshArgs (Opts r)).

End Exec.

(** [NewStorageBaremetalRestarter]: every option at its zero value. *)
Definition NewStorageBaremetalRestarter : StorageBaremetalRestarter :=
  mkRestarter (mkOpts [] false).

(** How many of the arguments are tool names. *)
Definition countSshCommands (args : list string) : nat :=
  List.length (filter isSshCommand args).








(** The tool and the forwarded arguments as the specification words them:
    the last of the tool names among the arguments ([ssh] when there is
    none), and the arguments that are not tool names. *)
Definition lastSshCommand (args : list string) : string :=
  last (filter isSshCommand args) "ssh".

Definition forwardedArgs (args : list string) : list string :=
  filter (fun arg => negb (isSshCommand arg)) args.

Definition supportedCommands : list string := ["ssh"; "pssh"; "nssh"].

(** The argument vector as the specification words it: [run], the forwarded
    arguments, then host and command in the order the tool expects. *)
Definition argvFor (tool host command : string) (forwarded : list string)
    : list string :=
  "run" :: forwarded
    ++ (if tool =? "ssh" then [host; command] else [command; host]).


End Restarters.

(** ** Package strconv (Go standard library) *)
Module Strconv.

Local Open Scope Z_scope.

Definition intSize : Z := 64.
Definition maxInt : Z := 2 ^ (intSize - 1) - 1.
Definition minInt : Z := - 2 ^ (intSize - 1).

(** [ch -= '0'; if ch > 9 { syntax error }] on a byte. *)
Definition digitOf (ch : ascii) : option Z :=
  let d := Z.of_N (N_of_ascii ch) - 48 in
  if (0 <=? d) && (d <=? 9) then Some d else None.

(** The digit loop [n = n*10 + int(ch)]. *)
Fixpoint parseDigits (s : string) (n : Z) : option Z :=
  match s with
  | EmptyString => Some n
  | String ch rest =>
      match digitOf ch with
      | Some d => parseDigits rest (n * 10 + d)
      | None => None
      end
  end.

Definition ErrSyntax : error := ErrorsNew "invalid syntax".
Definition ErrRange : error := ErrorsNew "value out of range".

Definition syntaxError (fn s : string) : error := NumError fn s ErrSyntax.
Definition rangeError (fn s : string) : error := NumError fn s ErrRange.

Definition maxUint64 : Z := 2 ^ 64 - 1.

(** What [ParseUint] hands back: a value, a syntax error, or a range error
    (with the largest value). *)
Inductive uintResult : Type :=
| UintOk (n : Z)
| UintSyntax
| UintRange.

(** The loop of [ParseUint(s, 10, 0)] over the bytes of [s]: a byte that is
    no decimal digit is a syntax error (an underscore too, the base being
    given); then [n >= cutoff] and [n*10 + d > maxVal] are range errors,
    returned at once, before the bytes that follow are looked at. *)
Fixpoint parseUintLoop (s : string) (n : Z) : uintResult :=
  match s with
  | EmptyString => UintOk n
  | String c rest =>
      match digitOf c with
      | None => UintSyntax
      | Some d =>
          if maxUint64 / 10 + 1 <=? n then UintRange
          else
            let n1 := n * 10 + d in
            if maxUint64 <? n1 then UintRange else parseUintLoop rest n1
      end
  end.

Definition ParseUint (s : string) : uintResult :=
  match s with
  | EmptyString => UintSyntax
  | _ => parseUintLoop s 0
  end.

(** [ParseInt(s, 10, 0)]: the sign is picked off, the rest goes through
    [ParseUint]; a syntax error is returned as it is, a range error or a
    value beyond the cutoff [2^63] is a range error.  A value within the
    range is [int64(un)], negated after a minus sign. *)
Definition ParseInt (s : string) : result Z :=
  match s with
  | EmptyString => Err (syntaxError "ParseInt" s)
  | String c rest =>
      let neg := (c =? "-")%char in
      let digits := if (c =? "+")%char then rest
                    else if neg then rest else s in
      match ParseUint digits with
      | UintSyntax => Err (syntaxError "ParseInt" s)
      | r =>
          let un := match r with UintOk n => n | _ => maxUint64 end in
          let cutoff := 2 ^ (intSize - 1) in
          if negb neg && (cutoff <=? un) then Err (rangeError "ParseInt" s)
          else if neg && (cutoff <? un) then Err (rangeError "ParseInt" s)
          else Ok (if neg then - un else un)
      end
  end.

(** The fast path of [Atoi], taken by inputs of 1 to 18 bytes, whose digits
    cannot overflow an [int]. *)
Definition atoiFast (s : string) : result Z :=
  match s with
  | EmptyString => Err (syntaxError "Atoi" s)
  | String c rest =>
      let digits := if (c =? "-")%char || (c =? "+")%char then rest else s in
      match digits with
      | EmptyString => Err (syntaxError "Atoi" s)
      | _ =>
          match parseDigits digits 0 with
          | None => Err (syntaxError "Atoi" s)
          | Some n => Ok (if (c =? "-")%char then - n else n)
          end
      end
  end.

(** [strconv.Atoi]: the fast path for short inputs, else [ParseInt] with the
    function name of its error replaced. *)
Definition Atoi (s : string) : result Z :=
  let sLen := String.length s in
  if (Nat.ltb 0 sLen && Nat.ltb sLen 19)%bool then atoiFast s
  else
    match ParseInt s with
    | Err (NumError _ num err) => Err (NumError "Atoi" num err)
    | r => r
    end.

End Strconv.

(** ** Package net/url (Go standard library): which strings [url.Parse]
    accepts.  Only the error result matters to the callers here, so the
    parsed [URL] is not built. *)
Module URL.

Definition between (lo hi c : ascii) : bool :=
  ((lo <=? c) && (c <=? hi))%char.

Definition isAlpha (c : ascii) : bool :=
  between "a" "z" c || between "A" "Z" c.

Definition isDigit (c : ascii) : bool := between "0" "9" c.

Definition ishex (c : ascii) : bool :=
  isDigit c || between "a" "f" c || between "A" "F" c.

Definition unhex (c : ascii) : N :=
  let n := N_of_ascii c in
  if isDigit c then (n - 48)%N
  else if between "a" "f" c then (n - 97 + 10)%N
  else if between "A" "F" c then (n - 65 + 10)%N
  else 0%N.

Fixpoint containsByte (c : ascii) (s : string) : bool :=
  match s with
  | EmptyString => false
  | String d rest => (c =? d)%char || containsByte c rest
  end.

Fixpoint countByte (c : ascii) (s : string) : nat :=
  match s with
  | EmptyString => O
  | String d rest => (if (c =? d)%char then 1 else 0) + countByte c rest
  end.

(** [strings.Cut(s, sep)] for a one-byte separator: before and after the
    first occurrence, or all of [s] and the empty string. *)
Fixpoint cut (sep : ascii) (s : string) : string * string :=
  match s with
  | EmptyString => (EmptyString, EmptyString)
  | String d rest =>
      if (sep =? d)%char then (EmptyString, rest)
      else let '(before, after) := cut sep rest in (String d before, after)
  end.

(** [strings.LastIndex(s, sep)] for a one-byte separator. *)
Fixpoint lastIndexByte (c : ascii) (s : string) : option nat :=
  match s with
  | EmptyString => None
  | String d rest =>
      match lastIndexByte c rest with
      | Some i => Some (S i)
      | None => if (c =? d)%char then Some O else None
      end
  end.

Definition hasPrefix (s p : string) : bool := String.prefix p s.

Fixpoint hasSuffixByte (s : string) (c : ascii) : bool :=
  match s with
  | EmptyString => false
  | String d EmptyString => (c =? d)%char
  | String _ rest => hasSuffixByte rest c
  end.

(** [s[:n]] and [s[n:]]. *)
Definition upto (n : nat) (s : string) : string := String.substring 0 n s.
Definition from (n : nat) (s : string) : string :=
  String.substring n (String.length s - n) s.

Fixpoint stringContainsCTLByte (s : string) : bool :=
  match s with
  | EmptyString => false
  | String b rest =>
      (b <? " ")%char || (b =? ascii_of_nat 127)%char
      || stringContainsCTLByte rest
  end.

(** [getScheme]: the scheme and the rest, or the error of a leading colon. *)
Fixpoint getSchemeLoop (rawURL : string) (s : string) (i : nat)
    : option (string * string) :=
  match s with
  | EmptyString => Some (EmptyString, rawURL)
  | String c rest =>
      if isAlpha c then getSchemeLoop rawURL rest (S i)
      else if isDigit c || (c =? "+")%char || (c =? "-")%char
              || (c =? ".")%char then
        match i with
        | O => Some (EmptyString, rawURL)
        | S _ => getSchemeLoop rawURL rest (S i)
        end
      else if (c =? ":")%char then
        match i with
        | O => None
        | S _ => Some (upto i rawURL, rest)
        end
      else Some (EmptyString, rawURL)
  end.

Definition getScheme (rawURL : string) : option (string * string) :=
  getSchemeLoop rawURL rawURL 0.

Inductive encoding : Type :=
| encodePath
| encodeUserPassword
| encodeHost
| encodeZone
| encodeFragment.

Definition isHostMode (mode : encoding) : bool :=
  match mode with
  | encodeHost | encodeZone => true
  | _ => false
  end.

(** [shouldEscape(c, encodeHost)]: letters, digits, the sub-delimiters and
    brackets the host switch lists, and the unreserved marks need no escape;
    every other byte does. *)
Definition shouldEscapeHost (c : ascii) : bool :=
  if isAlpha c || isDigit c then false
  else if containsByte c "!$&'()*+,;=:[]<>"
          || (c =? ascii_of_nat 34)%char then false
  else if containsByte c "-_.~" then false
  else true.

(** The checking loop of [unescape(s, mode)]: [None] when it finds nothing
    wrong, else its [EscapeError] or [InvalidHostError]. *)
Fixpoint unescapeCheck (mode : encoding) (s : string) : option error :=
  match s with
  | EmptyString => None
  | String "%" (String a (String b rest)) =>
      let esc := String "%" (String a (String b EmptyString)) in
      if negb (ishex a && ishex b) then
        Some (EscapeError esc)
      else if match mode with encodeHost => true | _ => false end
              && (unhex a <? 8)%N && negb (esc =? "%25") then
        Some (EscapeError esc)
      else if match mode with encodeZone => true | _ => false end
              && negb (esc =? "%25")
              && negb (unhex a * 16 + unhex b =? 32)%N
              && shouldEscapeHost (ascii_of_N (unhex a * 16 + unhex b)) then
        Some (EscapeError esc)
      else unescapeCheck mode rest
  | String "%" _ => Some (EscapeError s)
  | String c rest =>
      if isHostMode mode && (c <? ascii_of_nat 128)%char
         && negb (c =? "+")%char && shouldEscapeHost c then
        Some (InvalidHostError (String c EmptyString))
      else unescapeCheck mode rest
  end.

Fixpoint validPortDigits (s : string) : bool :=
  match s with
  | EmptyString => true
  | String b rest => isDigit b && validPortDigits rest
  end.

Definition validOptionalPort (port : string) : bool :=
  match port with
  | EmptyString => true
  | String c rest => (c =? ":")%char && validPortDigits rest
  end.

Fixpoint validUserinfo (s : string) : bool :=
  match s with
  | EmptyString => true
  | String r rest =>
      (isAlpha r || isDigit r || containsByte r "-._:~!$&'()*+,;=%@")
      && validUserinfo rest
  end.

(** [parseHost]: [None] when the host is accepted. *)
Definition parseHost (host : string) : option error :=
  if hasPrefix host "[" then
    match lastIndexByte "]" host with
    | None => Some (ErrorsNew "missing ']' in host")
    | Some i =>
        let colonPort := from (S i) host in
        if negb (validOptionalPort colonPort) then
          Some (Errorf "invalid port %q after host" [ArgS colonPort])
        else
          match String.index 0 "%25" (upto i host) with
          | Some zone =>
              match unescapeCheck encodeHost (upto zone host) with
              | Some e => Some e
              | None =>
                  match unescapeCheck encodeZone
                          (String.substring zone (i - zone) host) with
                  | Some e => Some e
                  | None => unescapeCheck encodeHost (from i host)
                  end
              end
          | None => unescapeCheck encodeHost host
          end
    end
  else
    match lastIndexByte ":" host with
    | Some i =>
        let colonPort := from i host in
        if negb (validOptionalPort colonPort) then
          Some (Errorf "invalid port %q after host" [ArgS colonPort])
        else unescapeCheck encodeHost host
    | None => unescapeCheck encodeHost host
    end.

(** [parseAuthority]: [None] when user information and host are accepted. *)
Definition parseAuthority (authority : string) : option error :=
  match lastIndexByte "@" authority with
  | None => parseHost authority
  | Some i =>
      match parseHost (from (S i) authority) with
      | Some e => Some e
      | None =>
          let userinfo := upto i authority in
          if negb (validUserinfo userinfo) then
            Some (ErrorsNew "net/url: invalid userinfo")
          else if negb (containsByte ":" userinfo) then
            unescapeCheck encodeUserPassword userinfo
          else
            let '(username, password) := cut ":" userinfo in
            match unescapeCheck encodeUserPassword username with
            | Some e => Some e
            | None => unescapeCheck encodeUserPassword password
            end
      end
  end.

(** [parse(rawURL, viaRequest = false)]. *)
Definition parse (rawURL : string) : option error :=
  if stringContainsCTLByte rawURL then
    Some (ErrorsNew "net/url: invalid control character in URL")
  else if (rawURL =? "*")%string then None
  else
    match getScheme rawURL with
    | None => Some (ErrorsNew "missing protocol scheme")
    | Some (scheme, rest) =>
        let rest :=
          if hasSuffixByte rest "?" && Nat.eqb (countByte "?" rest) 1
          then upto (String.length rest - 1) rest
          else fst (cut "?" rest) in
        let hasScheme := negb (scheme =? EmptyString)%string in
        if negb (hasPrefix rest "/") && hasScheme then None
        else if negb (hasPrefix rest "/")
                && containsByte ":" (fst (cut "/" rest)) then
          Some (ErrorsNew "first path segment in URL cannot contain colon")
        else if (hasScheme || negb (hasPrefix rest "///"))
                && hasPrefix rest "//" then
          let authority := from 2 rest in
          let '(authority, rest) :=
            match String.index 0 "/" authority with
            | Some i => (upto i authority, from i authority)
            | None => (authority, EmptyString)
            end in
          match parseAuthority authority with
          | Some e => Some e
          | None => unescapeCheck encodePath rest
          end
        else unescapeCheck encodePath rest
    end.

(** [url.Parse]: the fragment is cut off at the first [#] and checked after
    the rest has parsed. *)
Definition Parse (rawURL : string) : result unit :=
  let '(u, frag) := cut "#" rawURL in
  match parse u with
  | Some e => Err (URLError "parse" u e)
  | None =>
      match frag with
      | EmptyString => Ok tt
      | _ =>
          match unescapeCheck encodeFragment frag with
          | Some e => Err (URLError "parse" rawURL e)
          | None => Ok tt
          end
      end
  end.

End URL.

(** ** Package time and durationpb *)
Module Time.

Local Open Scope Z_scope.

(** Two's complement wrap-around of a [bits]-wide signed integer. *)
Definition wrapSigned (bits : Z) (x : Z) : Z :=
  (x + 2 ^ (bits - 1)) mod 2 ^ bits - 2 ^ (bits - 1).

Definition int64 (x : Z) : Z := wrapSigned 64 x.
Definition int32 (x : Z) : Z := wrapSigned 32 x.

(** [time.Duration] is an [int64] count of nanoseconds. *)
Definition Second : Z := 1000000000.

(** [a * b] on [time.Duration]. *)
Definition mulDuration (a b : Z) : Z := int64 (a * b).

(** [durationpb.Duration]. *)
Record Duration : Type := mkDuration {
  Seconds : Z;
  Nanos : Z
}.

(** [durationpb.New]: Go's [/] truncates toward zero. *)
Definition New (d : Z) : Duration :=
  let nanos := d in
  let secs := Z.quot nanos 1000000000 in
  let nanos := int64 (nanos - int64 (secs * 1000000000)) in
  mkDuration secs (int32 nanos).

End Time.

(** ** Package util *)
Module Util.

(** Modelled from the spec: [util.Contains] is not among the sources.  The
    specification has an availability mode be one of a fixed list of names;
    the helper tells whether the slice holds the string. *)
Definition Contains (xs : list string) (x : string) : bool :=
  existsb (String.eqb x) xs.

End Util.

(** ** Package strings (Go standard library) *)
Module Strings.

Fixpoint isASCII (s : string) : bool :=
  match s with
  | EmptyString => true
  | String c rest => (c <? ascii_of_nat 128)%char && isASCII rest
  end.

(** [c -= 'a' - 'A'] on a lower-case letter, any other byte unchanged. *)
Definition upperByte (c : ascii) : ascii :=
  if URL.between "a" "z" c then ascii_of_nat (nat_of_ascii c - 32) else c.

Fixpoint mapBytes (f : ascii -> ascii) (s : string) : string :=
  match s with
  | EmptyString => EmptyString
  | String c rest => String (f c) (mapBytes f rest)
  end.

Section ToUpper.

(** [strings.Map(unicode.ToUpper, s)], the path taken by a string that
    holds a byte outside ASCII. *)
Variable unicodeToUpper : string -> string.

(** [strings.ToUpper]: an ASCII-only string has its lower-case letters
    shifted to upper case (and is returned as it is when it has none). *)
Definition ToUpper (s : string) : string :=
  if isASCII s then mapBytes upperByte s else unicodeToUpper s.

End ToUpper.

End Strings.

(** ** Package options *)
Module Options.

Local Open Scope Z_scope.

Definition DefaultRetryCount : Z := 3.
Definition DefaultRestartDuration : Z := 3.

Definition AvailabilityModes : list string := ["strong"; "weak"; "force"].

(** [uint32(id)] on an [int]. *)
Definition uint32 (id : Z) : Z := id mod 2 ^ 32.

Section WithCMS.

(** The [CMS] sub-options and their [Validate], which are not among the
    sources. *)
Variable CMS : Type.
Variable CMS_Validate : CMS -> option error.

Record RestartOptions : Type := mkRestartOptions {
  CMS_ : CMS;
  AvailabilityMode : string;
  Tenants : list string;
  Hosts : list string;
  ExcludeHosts : list string;
  RestartDuration : Z;
  RestartRetryNumber : Z;
  Continue : bool
}.

Definition GetRestartDuration (o : RestartOptions) : Time.Duration :=
  Time.New
    (Time.mulDuration
       (Time.mulDuration Time.Second (Time.int64 (RestartDuration o)))
       (Time.int64 (RestartRetryNumber o))).

(** The loop of [GetNodeFQDNs] over the rest of [o.Hosts]. *)
Fixpoint fqdnsLoop (rest : list string) (hosts : list string)
    : result (list string) :=
  match rest with
  | [] => Ok hosts
  | hostFqdn :: rest' =>
      match URL.Parse hostFqdn with
      | Err _ => Err (Errorf "invalid host fqdn specified: %s" [ArgS hostFqdn])
      | Ok _ => fqdnsLoop rest' (hosts ++ [hostFqdn])
      end
  end.

Definition GetNodeFQDNs (o : RestartOptions) : result (list string) :=
  fqdnsLoop (Hosts o) [].

(** The loop of [GetNodeIds] over the rest of [o.Hosts]. *)
Fixpoint idsLoop (rest : list string) (ids : list Z) : result (list Z) :=
  match rest with
  | [] => Ok ids
  | nodeId :: rest' =>
      match Strconv.Atoi nodeId with
      | Err err => Err (Errorf "failed to parse node id: %+v" [ArgE err])
      | Ok id =>
          if id <? 0 then
            Err (Errorf "invalid node id specified: %d, must be positive"
                   [ArgD id])
          else idsLoop rest' (ids ++ [uint32 id])
      end
  end.

Definition GetNodeIds (o : RestartOptions) : result (list Z) :=
  idsLoop (Hosts o) [].

Definition Validate (o : RestartOptions) : option error :=
  if negb (Util.Contains AvailabilityModes (AvailabilityMode o)) then
    Some (Errorf "specified not supported availability mode: %s"
            [ArgS (AvailabilityMode o)])
  else if RestartDuration o <? 0 then
    Some (Errorf
            "specified invalid restart duration seconds: %d. Must be positive"
            [ArgD (RestartDuration o)])
  else if RestartRetryNumber o <? 0 then
    Some (Errorf
            "specified invalid restart retry number: %d. Must be positive"
            [ArgD (RestartRetryNumber o)])
  else
    match errOf (GetNodeIds o), errOf (GetNodeFQDNs o) with
    | Some errFromIds, Some errFromFQDNs =>
        Some (Errorf
                "failed to parse --hosts argument as node ids (%w) or host fqdns (%w)"
                [ArgE errFromIds; ArgE errFromFQDNs])
    | _, _ =>
        match CMS_Validate (CMS_ o) with
        | Some err => Some err
        | None => None
        end
    end.

End WithCMS.

Arguments mkRestartOptions {CMS}.
Arguments CMS_ {CMS} r.
Arguments AvailabilityMode {CMS} r.
Arguments Tenants {CMS} r.
Arguments Hosts {CMS} r.
Arguments ExcludeHosts {CMS} r.
Arguments RestartDuration {CMS} r.
Arguments RestartRetryNumber {CMS} r.
Arguments Continue {CMS} r.
Arguments GetRestartDuration {CMS} o.
Arguments GetNodeFQDNs {CMS} o.
Arguments GetNodeIds {CMS} o.
Arguments Validate {CMS} CMS_Validate o.

(** A Go [int]. *)
Definition isInt (x : Z) : Prop := Strconv.minInt <= x <= Strconv.maxInt.

(** The two kinds of token of the [--hosts] option as the specification
    words them.  A host reference (network address or FQDN) is read
    generously: a non-empty string written only with the bytes of host
    names, IP literals and ports.  A node id token is a non-empty string of
    decimal digits. *)
Definition hostByte (c : ascii) : bool :=
  URL.isAlpha c || URL.isDigit c || URL.containsByte c "-.:[]".

Fixpoint allBytes (p : ascii -> bool) (s : string) : bool :=
  match s with
  | EmptyString => true
  | String c rest => p c && allBytes p rest
  end.

Definition nonEmpty (s : string) : bool :=
  match s with EmptyString => false | String _ _ => true end.

Definition isHostReference (s : string) : bool :=
  nonEmpty s && allBytes hostByte s.

Definition isBareInteger (s : string) : bool :=
  nonEmpty s && allBytes URL.isDigit s.

(** An invocation whose CMS sub-options validate, with the given [--hosts],
    [--restart-duration] and [--restart-retry-number] and the default
    availability mode. *)
Definition cmsValidates : unit -> option error := fun _ => None.

Definition invocation (hosts : list string) (duration retries : Z)
    : RestartOptions unit :=
  mkRestartOptions tt "strong" [] hosts [] duration retries false.

Section Flags.

Variable CMS : Type.

(** [o.CMS.DefineFlags(fs)], which is not among the sources: what it leaves
    in the CMS sub-options. *)
Variable CMS_DefineFlags : CMS -> CMS.

(** [DefineFlags], as far as [o] goes: [pflag]'s [XxxVar] functions store the
    default of each flag through the pointer they are given. *)
Definition DefineFlags (o : RestartOptions CMS) : RestartOptions CMS :=
  mkRestartOptions
    (CMS_DefineFlags (CMS_ o))
    (hd EmptyString AvailabilityModes)
    (Tenants o)
    (Hosts o)
    []
    DefaultRestartDuration
    DefaultRetryCount
    false.

(** [strings.Map(unicode.ToUpper, s)] and the generated map
    [Ydb_Maintenance.AvailabilityMode_value] of the protocol package. *)
Variable unicodeToUpper : string -> string.
Variable AvailabilityMode_value : string -> option Z.

(** Indexing a Go map: the zero value for a missing key. *)
Definition mapIndex (m : string -> option Z) (key : string) : Z :=
  match m key with
  | Some v => v
  | None => 0
  end.

Definition GetAvailabilityMode (o : RestartOptions CMS) : Z :=
  let title :=
    Strings.ToUpper unicodeToUpper
      ("availability_mode_" ++ AvailabilityMode o)%string in
  let value := mapIndex AvailabilityMode_value title in
  value.

End Flags.

Arguments DefineFlags {CMS} CMS_DefineFlags o.
Arguments GetAvailabilityMode {CMS} unicodeToUpper AvailabilityMode_value o.

(** The enum values of [AvailabilityMode] in the maintenance protocol. *)
Definition protoAvailabilityModes (key : string) : option Z :=
  if (key =? "AVAILABILITY_MODE_UNSPECIFIED")%string then Some 0
  else if (key =? "AVAILABILITY_MODE_STRONG")%string then Some 1
  else if (key =? "AVAILABILITY_MODE_WEAK")%string then Some 2
  else if (key =? "AVAILABILITY_MODE_FORCE")%string then Some 3
  else None.

(** The integer [strconv.Atoi] reads from a token (zero when it reads
    none). *)
Definition nodeIdOf (s : string) : Z :=
  match Strconv.Atoi s with
  | Ok id => id
  | Err _ => 0
  end.

(** The bytes of a signed decimal integer. *)
Definition plainByte (c : ascii) : bool :=
  URL.isDigit c || (c =? "+")%char || (c =? "-")%char.

(** A token that [strconv.Atoi] reads as a non-negative integer. *)
Definition isNodeId (s : string) : bool :=
  match Strconv.Atoi s with
  | Ok id => 0 <=? id
  | Err _ => false
  end.

End Options.


(** * Properties *)

(** ** The storage baremetal restarter *)
Module RestartersFacts.
Import Restarters.

Lemma isSshCommand_In (arg : string) :
  isSshCommand arg = true <-> In arg supportedCommands.
Proof.
  unfold isSshCommand, supportedCommands. simpl.
  rewrite !orb_true_iff, !String.eqb_eq. intuition congruence.
Qed.

Lemma last_cons_twice {A : Type} (x : A) (l : list A) (d : A) :
  last (x :: l) d = last l x.
Proof.
  revert x d. induction l as [|y l IH]; intros x d; [reflexivity|].
  change (last (x :: y :: l) d) with (last (y :: l) d).
  rewrite (IH y d), (IH y x). reflexivity.
Qed.

(** The loop keeps the last tool name seen and appends the other arguments
    in order. *)
Lemma stripLoop_spec (args : list string) :
  forall command remaining,
    stripLoop args command remaining =
    (last (filter isSshCommand args) command, remaining ++ forwardedArgs args).
Proof.
  induction args as [|arg rest IH]; intros command remaining; simpl.
  - now rewrite app_nil_r.
  - unfold forwardedArgs. simpl. destruct (isSshCommand arg) eqn:E; simpl.
    + rewrite IH. f_equal. destruct (filter isSshCommand rest) eqn:F.
      * reflexivity.
      * now rewrite <- last_cons_twice with (d := command).
    + rewrite IH, <- app_assoc. reflexivity.
Qed.

Lemma stripCommandFromArgs_spec (args : list string) :
  stripCommandFromArgs args = (lastSshCommand args, forwardedArgs args).
Proof. unfold stripCommandFromArgs. now rewrite stripLoop_spec. Qed.

Lemma lastSshCommand_supported (args : list string) :
  isSshCommand (lastSshCommand args) = true.
Proof.
  unfold lastSshCommand.
  assert (H : Forall (fun a => isSshCommand a = true) (filter isSshCommand args)).
  { apply Forall_forall. intros a Ha. now apply filter_In in Ha. }
  induction H as [|a l Ha _ IH]; [reflexivity|].
  rewrite last_cons_twice. destruct l as [|b l]; [exact Ha|].
  rewrite <- last_cons_twice with (d := "ssh"). exact IH.
Qed.

Lemma fullSSHArgsFor_supported (sshCommand : string) remaining host command :
  isSshCommand sshCommand = true ->
  fullSSHArgsFor sshCommand remaining host command =
  Ok ("run" :: remaining
        ++ (if sshCommand =? "ssh" then [host; command] else [command; host])).
Proof.
  unfold isSshCommand, fullSSHArgsFor. intros H.
  destruct (sshCommand =? "ssh") eqn:E1; [reflexivity|].
  destruct (sshCommand =? "pssh") eqn:E2, (sshCommand =? "nssh") eqn:E3;
    simpl in *; try reflexivity; discriminate.
Qed.

Lemma fullSSHArgsFor_unsupported (sshCommand : string) remaining host command :
  isSshCommand sshCommand = false ->
  fullSSHArgsFor sshCommand remaining host command =
  Err (Errorf "Supported ssh commands: ssh, pssh, nssh. Specified: %s"
         [ArgS sshCommand]).
Proof.
  unfold isSshCommand, fullSSHArgsFor. intros H.
  apply orb_false_iff in H as [H H3]. apply orb_false_iff in H as [H1 H2].
  now rewrite H1, H2, H3.
Qed.

Section Launch.

Variable os_exec : Cmd -> ProcResult.

Lemma restartNodeBySystemdUnit_spec (node : Node) (unitName : string)
    (args : list string) :
  restartNodeBySystemdUnit os_exec node unitName args =
  startAndWait os_exec
    (mkCmd (lastSshCommand args)
       (argvFor (lastSshCommand args) (Host node)
          (remoteRestartCommand unitName) (forwardedArgs args))).
Proof.
  unfold restartNodeBySystemdUnit, restartWith.
  rewrite stripCommandFromArgs_spec.
  rewrite fullSSHArgsFor_supported by apply lastSshCommand_supported.
  reflexivity.
Qed.

(** C4: the restart command is launched through the tool named last among
    the ssh arguments ([ssh] when none is named), which is one of [ssh],
    [pssh] and [nssh]; the tool names are stripped from the forwarded
    arguments; the command handed to the operating system has the host
    before the command for [ssh] and the command before the host for [pssh]
    and [nssh], and what the function returns is what the operating system
    makes of that command; and the switch, given any other tool name,
    returns its error and starts nothing. *)
Theorem restart_tool_and_argument_order (node : Node) (unitName : string)
    (args : list string) :
  let tool := lastSshCommand args in
  let command := remoteRestartCommand unitName in
  let forwarded := forwardedArgs args in
  let cmd :=
    mkCmd tool
      ("run" :: forwarded
         ++ (if tool =? "ssh" then [Host node; command]
             else [command; Host node])) in
  In tool supportedCommands
  /\ stripCommandFromArgs args = (tool, forwarded)
  /\ Forall (fun arg => ~ In arg supportedCommands) forwarded
  /\ restartNodeBySystemdUnit os_exec node unitName args =
     match os_exec cmd with
     | StartFails msg => ([], Some (ExecError msg))
     | WaitFails msg => ([cmd], Some (ExecError msg))
     | Exited => ([cmd], None)
     end
  /\ (forall other remaining,
        ~ In other supportedCommands ->
        restartWith os_exec other remaining node unitName =
        ([], Some (Errorf
                     "Supported ssh commands: ssh, pssh, nssh. Specified: %s"
                     [ArgS other]))).
Proof.
  cbv zeta. repeat split.
  - apply isSshCommand_In, lastSshCommand_supported.
  - apply stripCommandFromArgs_spec.
  - apply Forall_forall. intros arg Harg Hin.
    apply filter_In in Harg as [_ Hneg].
    apply isSshCommand_In in Hin. rewrite Hin in Hneg. discriminate.
  - rewrite restartNodeBySystemdUnit_spec. reflexivity.
  - intros other remaining Hother. unfold restartWith.
    rewrite fullSSHArgsFor_unsupported; [reflexivity|].
    destruct (isSshCommand other) eqn:E; [|reflexivity].
    now apply isSshCommand_In in E.
Qed.

(** C10: [stripCommandFromArgs] always returns one of [ssh], [pssh] and
    [nssh] as the command, so the switch of [restartNodeBySystemdUnit] never
    takes its default branch: the argument vector is always built, what the
    function returns is what starting and awaiting the command gives, and
    that is never an error made by [fmt.Errorf]. *)
Theorem stripCommandFromArgs_command_supported (args : list string) :
  In (fst (stripCommandFromArgs args)) supportedCommands
  /\ (forall host command,
        isOk (fullSSHArgsFor (fst (stripCommandFromArgs args))
                (snd (stripCommandFromArgs args)) host command) = true)
  /\ (forall node unitName,
        exists cmd,
          restartNodeBySystemdUnit os_exec node unitName args =
          startAndWait os_exec cmd)
  /\ (forall node unitName format fargs,
        snd (restartNodeBySystemdUnit os_exec node unitName args)
        <> Some (Errorf format fargs)).
Proof.
  rewrite stripCommandFromArgs_spec. simpl. split; [|split; [|split]].
  - apply isSshCommand_In, lastSshCommand_supported.
  - intros host command.
    rewrite fullSSHArgsFor_supported by apply lastSshCommand_supported.
    reflexivity.
  - intros node unitName. eexists. apply restartNodeBySystemdUnit_spec.
  - intros node unitName format fargs.
    rewrite restartNodeBySystemdUnit_spec. unfold startAndWait.
    destruct (os_exec _); simpl; discriminate.
Qed.

(** C5: [RestartNode] hands the operating system one command against the
    host of the node: the tool, [run], the forwarded ssh arguments, and the
    host with the remote command that restarts [ydb-server-storage.service]
    in the standard mode and [kikimr] when [kikimrStorageUnit] is set; what
    it returns is what the operating system makes of that command.  The unit
    is a function of that option alone, whatever the node. *)
Theorem RestartNode_unit (r : StorageBaremetalRestarter) (node : Node) :
  let unitName :=
    if kikimrStorageUnit (Opts r) then "kikimr"
    else "ydb-server-storage.service" in
  let command :=
    ("(test -x /bin/systemctl && sudo systemctl restart " ++ unitName ++ ")")
      %string in
  let tool := fst (stripCommandFromArgs (sshArgs (Opts r))) in
  let forwarded := snd (stripCommandFromArgs (sshArgs (Opts r))) in
  let cmd :=
    mkCmd tool
      ("run" :: forwarded
         ++ (if tool =? "ssh" then [Host node; command]
             else [command; Host node])) in
  systemdUnitName r = unitName
  /\ In tool supportedCommands
  /\ RestartNode os_exec r node =
     match os_exec cmd with
     | StartFails msg => ([], Some (ExecError msg))
     | WaitFails msg => ([cmd], Some (ExecError msg))
     | Exited => ([cmd], None)
     end.
Proof.
  cbv zeta.
  assert (Hunit : systemdUnitName r =
                  if kikimrStorageUnit (Opts r) then "kikimr"
                  else "ydb-server-storage.service").
  { unfold systemdUnitName. now destruct (kikimrStorageUnit (Opts r)). }
  split; [exact Hunit|].
  rewrite stripCommandFromArgs_spec. simpl fst. simpl snd. split.
  - apply isSshCommand_In, lastSshCommand_supported.
  - unfold RestartNode. rewrite restartNodeBySystemdUnit_spec, Hunit.
    reflexivity.
Qed.

End Launch.

(** With [pssh] named after [ssh] among the arguments of a node on
    [host-1], and a process that exits cleanly, [pssh] is started with the
    command before the host and the result is [nil]; and [scp] as the tool
    is refused before anything is started. *)
Lemma restart_tool_example :
  let os_exec := fun _ : Cmd => Exited in
  let node := mkNode 1 "host-1" Storage in
  restartNodeBySystemdUnit os_exec node "kikimr" ["ssh"; "-A"; "pssh"; "-v"] =
  ([mkCmd "pssh"
      ["run"; "-A"; "-v";
       "(test -x /bin/systemctl && sudo systemctl restart kikimr)";
       "host-1"]],
   None)
  /\ restartWith os_exec "scp" ["-A"] node "kikimr" =
     ([], Some (Errorf
                  "Supported ssh commands: ssh, pssh, nssh. Specified: %s"
                  [ArgS "scp"])).
Proof.
  cbv zeta.
  pose proof (restart_tool_and_argument_order (fun _ : Cmd => Exited)
                (mkNode 1 "host-1" Storage) "kikimr"
                ["ssh"; "-A"; "pssh"; "-v"]) as H.
  cbv zeta in H. destruct H as (_ & _ & _ & Hrun & Hother).
  split.
  - exact Hrun.
  - apply Hother. simpl. intuition discriminate.
Defined.



End RestartersFacts.

(** ** The restart options *)
Module OptionsFacts.
Import Options.

Local Open Scope Z_scope.

Lemma int64_small (x : Z) :
  - 2 ^ 63 <= x < 2 ^ 63 -> Time.int64 x = x.
Proof.
  intros H. unfold Time.int64, Time.wrapSigned.
  change (2 ^ (64 - 1)) with (2 ^ 63). change (2 ^ 64) with (2 * 2 ^ 63).
  rewrite Z.mod_small; lia.
Qed.

(** Wrapping the left factor first does not change the wrapped product. *)
Lemma int64_mul_l (a b : Z) :
  Time.int64 (Time.int64 a * b) = Time.int64 (a * b).
Proof.
  unfold Time.int64, Time.wrapSigned.
  set (h := 2 ^ (64 - 1)). set (m := 2 ^ 64). f_equal.
  rewrite (Z.mod_eq (a + h) m) by (subst m; lia).
  replace ((a + h - m * ((a + h) / m) - h) * b + h)
    with (a * b + h + (- ((a + h) / m) * b) * m) by ring.
  apply Z.mod_add. subst m; lia.
Qed.

(** [durationpb.New] of a whole number of seconds. *)
Lemma New_seconds (n : Z) :
  - 2 ^ 63 <= n * 1000000000 < 2 ^ 63 ->
  Time.New (1000000000 * n) = Time.mkDuration n 0.
Proof.
  intros H. unfold Time.New.
  replace (1000000000 * n) with (n * 1000000000) by ring.
  rewrite Z.quot_mul by lia.
  rewrite (int64_small (n * 1000000000)) by lia.
  rewrite Z.sub_diag. reflexivity.
Qed.

Section WithCMS.

Variable CMS : Type.
Variable CMS_Validate : CMS -> option error.

(** C2, amended: for non-negative [RestartDuration] and [RestartRetryNumber]
    whose product, in nanoseconds, fits a [time.Duration] (at most
    [2^63 - 1] nanoseconds), [GetRestartDuration] is exactly
    [RestartDuration * RestartRetryNumber] seconds and no nanoseconds. *)
Theorem GetRestartDuration_seconds (o : RestartOptions CMS) :
  0 <= RestartDuration o <= Strconv.maxInt ->
  0 <= RestartRetryNumber o <= Strconv.maxInt ->
  Time.Second * RestartDuration o * RestartRetryNumber o <= 2 ^ 63 - 1 ->
  GetRestartDuration o =
  Time.mkDuration (RestartDuration o * RestartRetryNumber o) 0.
Proof.
  unfold GetRestartDuration, Time.mulDuration, Strconv.maxInt, Time.Second.
  change (2 ^ (Strconv.intSize - 1)) with (2 ^ 63).
  set (d := RestartDuration o). set (r := RestartRetryNumber o).
  intros Hd Hr Hfit.
  rewrite (int64_small d), (int64_small r) by lia.
  rewrite int64_mul_l.
  assert (0 <= d * r) by nia.
  rewrite int64_small by nia.
  replace (1000000000 * d * r) with (1000000000 * (d * r)) by ring.
  apply New_seconds. nia.
Qed.

Lemma int64_range (x : Z) : - 2 ^ 63 <= Time.int64 x < 2 ^ 63.
Proof.
  unfold Time.int64, Time.wrapSigned.
  change (2 ^ (64 - 1)) with (2 ^ 63). change (2 ^ 64) with (2 * 2 ^ 63).
  pose proof (Z.mod_pos_bound (x + 2 ^ 63) (2 * 2 ^ 63)). lia.
Qed.

(** The bound of [GetRestartDuration_seconds] is the exact one: beyond it
    the result is never the product in seconds. *)
Lemma GetRestartDuration_seconds_only_if (o : RestartOptions CMS) :
  0 <= RestartDuration o ->
  0 <= RestartRetryNumber o ->
  GetRestartDuration o =
  Time.mkDuration (RestartDuration o * RestartRetryNumber o) 0 ->
  Time.Second * RestartDuration o * RestartRetryNumber o <= 2 ^ 63 - 1.
Proof.
  unfold GetRestartDuration, Time.mulDuration, Time.New, Time.Second.
  set (d := RestartDuration o). set (r := RestartRetryNumber o).
  set (w := Time.int64 _). intros Hd Hr Heq.
  injection Heq as Hsecs _.
  pose proof (int64_range (Time.int64 (1000000000 * Time.int64 d)
                           * Time.int64 r)) as Hw.
  fold w in Hw.
  assert (Hq : Z.quot w 1000000000 <= Z.quot (2 ^ 63 - 1) 1000000000)
    by (apply Z.quot_le_mono; lia).
  change (Z.quot (2 ^ 63 - 1) 1000000000) with 9223372036 in Hq.
  nia.
Qed.

Lemma Contains_In (xs : list string) (x : string) :
  Util.Contains xs x = true <-> In x xs.
Proof.
  unfold Util.Contains. rewrite existsb_exists. split.
  - intros [y [Hy Heq]]. apply String.eqb_eq in Heq. now subst.
  - intros H. exists x. split; [exact H|apply String.eqb_refl].
Qed.

(** C3: [Validate] returns an error when the availability mode is not one
    of [strong], [weak], [force], or [RestartDuration] is negative, or
    [RestartRetryNumber] is negative; and when the CMS sub-options validate
    and [Hosts] parses as node ids or as FQDNs, it returns [nil] for every
    valid mode and non-negative pair of numbers, zero included. *)
Theorem Validate_rejects_and_accepts (o : RestartOptions CMS) :
  (~ In (AvailabilityMode o) ["strong"; "weak"; "force"]
   \/ RestartDuration o < 0 \/ RestartRetryNumber o < 0 ->
   Validate CMS_Validate o <> None)
  /\ (CMS_Validate (CMS_ o) = None ->
      isOk (GetNodeIds o) = true \/ isOk (GetNodeFQDNs o) = true ->
      In (AvailabilityMode o) ["strong"; "weak"; "force"] ->
      0 <= RestartDuration o ->
      0 <= RestartRetryNumber o ->
      Validate CMS_Validate o = None).
Proof.
  unfold Validate. change AvailabilityModes with ["strong"; "weak"; "force"].
  split.
  - intros Hbad.
    destruct (Util.Contains _ (AvailabilityMode o)) eqn:Emode; simpl;
      [|discriminate].
    apply Contains_In in Emode.
    destruct (RestartDuration o <? 0) eqn:Ed; [discriminate|].
    destruct (RestartRetryNumber o <? 0) eqn:Er; [discriminate|].
    apply Z.ltb_ge in Ed, Er. exfalso.
    destruct Hbad as [Hbad|[Hbad|Hbad]]; [now apply Hbad|lia|lia].
  - intros Hcms Hhosts Hmode Hd Hr.
    apply Contains_In in Hmode. rewrite Hmode. simpl.
    apply Z.ltb_ge in Hd, Hr. rewrite Hd, Hr, Hcms.
    destruct (GetNodeIds o), (GetNodeFQDNs o); simpl in *; try reflexivity.
    destruct Hhosts; discriminate.
Qed.

(** The loop of [GetNodeIds] succeeds on entries that all parse to
    non-negative integers, with the ids converted to [uint32] in order. *)
Lemma idsLoop_ok (rest : list string) :
  forall ids,
    Forall (fun h => exists id, Strconv.Atoi h = Ok id /\ 0 <= id) rest ->
    exists out,
      idsLoop rest ids = Ok (ids ++ out)
      /\ Forall2 (fun h v => exists id, Strconv.Atoi h = Ok id /\ v = uint32 id)
           rest out.
Proof.
  induction rest as [|h rest IH]; intros ids Hall; simpl.
  - exists []. now rewrite app_nil_r.
  - inversion Hall as [|? ? [id [Hid Hpos]] Hrest]; subst.
    rewrite Hid. apply Z.ltb_ge in Hpos. rewrite Hpos.
    destruct (IH (ids ++ [uint32 id]) Hrest) as [out [Hout Hrel]].
    exists (uint32 id :: out). rewrite Hout, <- app_assoc. split.
    + reflexivity.
    + constructor; [now exists id|exact Hrel].
Qed.

(** The loop of [GetNodeIds] fails as soon as an entry does not parse or
    parses to a negative integer. *)
Lemma idsLoop_err (rest : list string) :
  forall ids,
    Exists (fun h => isErr (Strconv.Atoi h) = true
                     \/ exists id, Strconv.Atoi h = Ok id /\ id < 0) rest ->
    isErr (idsLoop rest ids) = true.
Proof.
  induction rest as [|h rest IH]; intros ids Hex; simpl.
  - inversion Hex.
  - destruct (Strconv.Atoi h) as [id|e] eqn:Hid; [|reflexivity].
    destruct (id <? 0) eqn:Hneg; [reflexivity|].
    apply IH. inversion Hex as [? ? [Hbad|[id' [Heq Hlt]]]|]; subst.
    + rewrite Hid in Hbad. discriminate.
    + rewrite Hid in Heq. injection Heq as <-. apply Z.ltb_ge in Hneg. lia.
    + assumption.
Qed.

(** The loop of [GetNodeFQDNs] returns every entry, in order, when
    [url.Parse] accepts them all, and fails when it rejects one. *)
Lemma fqdnsLoop_ok (rest : list string) :
  forall hosts,
    Forall (fun h => isOk (URL.Parse h) = true) rest ->
    fqdnsLoop rest hosts = Ok (hosts ++ rest).
Proof.
  induction rest as [|h rest IH]; intros hosts Hall; simpl.
  - now rewrite app_nil_r.
  - inversion Hall as [|? ? Hh Hrest]; subst.
    destruct (URL.Parse h); [|discriminate].
    rewrite IH, <- app_assoc by assumption. reflexivity.
Qed.

Lemma fqdnsLoop_err (rest : list string) :
  forall hosts,
    Exists (fun h => isErr (URL.Parse h) = true) rest ->
    isErr (fqdnsLoop rest hosts) = true.
Proof.
  induction rest as [|h rest IH]; intros hosts Hex; simpl.
  - inversion Hex.
  - destruct (URL.Parse h) eqn:Hp; [|reflexivity].
    apply IH. inversion Hex as [? ? Hbad|]; subst; [|assumption].
    rewrite Hp in Hbad. discriminate.
Qed.

End WithCMS.

(** C2, as stated, fails: ten thousand million seconds with one retry are
    two non-negative integers, and the product in nanoseconds wraps around
    the 64 bits of [time.Duration]. *)
Lemma GetRestartDuration_wraps :
  let o := invocation [] 10000000000 1 in
  0 <= RestartDuration o
  /\ 0 <= RestartRetryNumber o
  /\ isInt (RestartDuration o)
  /\ GetRestartDuration o = Time.mkDuration (-8446744073) (-709551616)
  /\ GetRestartDuration o
     <> Time.mkDuration (RestartDuration o * RestartRetryNumber o) 0.
Proof.
  cbv zeta. unfold isInt. repeat split; try (vm_compute; congruence).
Qed.

(** The defaults, three seconds and three retries, give nine seconds, and a
    retry number of zero gives the zero duration. *)
Lemma GetRestartDuration_examples :
  GetRestartDuration (invocation [] 3 3) = Time.mkDuration 9 0
  /\ GetRestartDuration (invocation [] 3 0) = Time.mkDuration 0 0.
Proof.
  split.
  - apply (GetRestartDuration_seconds unit (invocation [] 3 3));
      vm_compute; intuition discriminate.
  - apply (GetRestartDuration_seconds unit (invocation [] 3 0));
      vm_compute; intuition discriminate.
Defined.

Lemma Validate_examples :
  Validate cmsValidates (invocation ["1"; "2"] (-1) 3) <> None
  /\ Validate cmsValidates (invocation ["1"; "2"] 0 0) = None.
Proof.
  split.
  - apply (proj1 (Validate_rejects_and_accepts unit cmsValidates
                    (invocation ["1"; "2"] (-1) 3))).
    right. left. reflexivity.
  - apply (proj2 (Validate_rejects_and_accepts unit cmsValidates
                    (invocation ["1"; "2"] 0 0))).
    + reflexivity.
    + left. reflexivity.
    + simpl. auto.
    + discriminate.
    + discriminate.
Defined.

(** C6 at the id [2^32]: the entry parses to the non-negative integer
    [4294967296], and [GetNodeIds] succeeds with the id [0] in its place. *)
Theorem GetNodeIds_truncates :
  Strconv.Atoi "4294967296" = Ok 4294967296
  /\ GetNodeIds (invocation ["4294967296"] 3 3) = Ok [0].
Proof. split; reflexivity. Qed.

(** C7 at a token that is no host reference: it holds a space and an
    exclamation mark, [url.Parse] accepts it, and [GetNodeFQDNs] succeeds
    and returns it. *)
Theorem GetNodeFQDNs_accepts_non_host :
  isHostReference "bad host!" = false
  /\ URL.Parse "bad host!" = Ok tt
  /\ GetNodeFQDNs (invocation ["bad host!"] 3 3) = Ok ["bad host!"].
Proof. repeat split; reflexivity. Qed.

(** C1 at a list that mixes a host FQDN and a node id: the id list fails to
    parse, the FQDN list parses, because [url.Parse] accepts the bare
    integer too, and [Validate] returns [nil]. *)
Theorem Validate_accepts_mixed_hosts :
  let o := invocation ["node1.example.com"; "1"] 3 3 in
  isHostReference "node1.example.com" = true
  /\ isBareInteger "1" = true
  /\ isErr (GetNodeIds o) = true
  /\ GetNodeFQDNs o = Ok ["node1.example.com"; "1"]
  /\ Validate cmsValidates o = None.
Proof. cbv zeta. repeat split; reflexivity. Qed.

End OptionsFacts.

(** ** Further properties of the storage baremetal restarter *)
Module RestartersMore.
Import Restarters RestartersFacts.

Lemma filter_forwardedArgs (args : list string) :
  filter isSshCommand (forwardedArgs args) = [].
Proof.
  unfold forwardedArgs. induction args as [|arg rest IH]; simpl.
  - reflexivity.
  - destruct (isSshCommand arg) eqn:E; simpl; [exact IH|].
    now rewrite E.
Qed.

Lemma forwardedArgs_idempotent (args : list string) :
  forwardedArgs (forwardedArgs args) = forwardedArgs args.
Proof.
  unfold forwardedArgs. induction args as [|arg rest IH]; simpl.
  - reflexivity.
  - destruct (isSshCommand arg) eqn:E; simpl; [exact IH|].
    rewrite E. simpl. now rewrite IH.
Qed.

(** X1: the arguments [stripCommandFromArgs] forwards hold no tool name any
    more: stripping them again changes nothing and finds the default tool. *)
Theorem stripCommandFromArgs_idempotent (args : list string) :
  stripCommandFromArgs (snd (stripCommandFromArgs args)) =
  ("ssh", snd (stripCommandFromArgs args)).
Proof.
  rewrite !stripCommandFromArgs_spec. simpl.
  rewrite forwardedArgs_idempotent.
  unfold lastSshCommand. now rewrite filter_forwardedArgs.
Qed.

(** X2: every argument is either forwarded or a tool name: the lengths add
    up, whatever the order of the arguments. *)
Theorem stripCommandFromArgs_length (args : list string) :
  List.length args =
  (List.length (snd (stripCommandFromArgs args)) + countSshCommands args)%nat.
Proof.
  rewrite stripCommandFromArgs_spec. simpl.
  unfold forwardedArgs, countSshCommands.
  induction args as [|arg rest IH]; simpl; [reflexivity|].
  destruct (isSshCommand arg); simpl; lia.
Qed.

Lemma no_tool_filters (args : list string) :
  Forall (fun arg => ~ In arg supportedCommands) args ->
  filter isSshCommand args = [] /\ forwardedArgs args = args.
Proof.
  unfold forwardedArgs.
  induction 1 as [|arg rest Harg _ [IH1 IH2]]; simpl; [now split|].
  destruct (isSshCommand arg) eqn:E.
  - exfalso. now apply Harg, isSshCommand_In.
  - simpl. now rewrite IH1, IH2.
Qed.

(** X3: arguments that name no tool are forwarded unchanged, and the tool is
    [ssh]. *)
Theorem stripCommandFromArgs_no_tool (args : list string) :
  Forall (fun arg => ~ In arg supportedCommands) args ->
  stripCommandFromArgs args = ("ssh", args).
Proof.
  intros H. rewrite stripCommandFromArgs_spec. unfold lastSshCommand.
  destruct (no_tool_filters args H) as [Hf Hg]. now rewrite Hf, Hg.
Qed.

Lemma stripCommandFromArgs_no_tool_example :
  stripCommandFromArgs ["-A"; "-i"; "key"] = ("ssh", ["-A"; "-i"; "key"]).
Proof.
  apply (stripCommandFromArgs_no_tool ["-A"; "-i"; "key"]).
  repeat constructor; simpl; intuition discriminate.
Defined.

Lemma last_app_default {A : Type} (l1 l2 : list A) :
  forall d, last (l1 ++ l2) d = last l2 (last l1 d).
Proof.
  induction l1 as [|x l1 IH]; intros d; [reflexivity|].
  change ((x :: l1) ++ l2) with (x :: (l1 ++ l2)).
  now rewrite !last_cons_twice, IH.
Qed.

(** X4: over two argument lists put one after the other, the forwarded
    arguments are those of the first followed by those of the second, and
    the tool is the one the second names, or else the one of the first. *)
Theorem stripCommandFromArgs_app (args1 args2 : list string) :
  stripCommandFromArgs (args1 ++ args2) =
  (if Nat.eqb (countSshCommands args2) 0
   then fst (stripCommandFromArgs args1)
   else fst (stripCommandFromArgs args2),
   snd (stripCommandFromArgs args1) ++ snd (stripCommandFromArgs args2)).
Proof.
  rewrite !stripCommandFromArgs_spec.
  unfold fst, snd, lastSshCommand, forwardedArgs, countSshCommands.
  rewrite !filter_app, last_app_default. f_equal.
  destruct (filter isSshCommand args2) as [|tool tools]; [reflexivity|].
  change (Nat.eqb (List.length (tool :: tools)) 0) with false.
  now rewrite !last_cons_twice.
Qed.

Section Outcome.

Variable os_exec : Cmd -> ProcResult.

(** X5: [restartNodeBySystemdUnit] returns [nil] exactly when the command it
    built was started and exited cleanly; it starts nothing exactly when
    [Start] fails, and it never starts a command other than that one. *)
Theorem restartNodeBySystemdUnit_outcome (node : Node) (unitName : string)
    (args : list string) :
  let cmd :=
    mkCmd (lastSshCommand args)
      (argvFor (lastSshCommand args) (Host node)
         (remoteRestartCommand unitName) (forwardedArgs args)) in
  let res := restartNodeBySystemdUnit os_exec node unitName args in
  (snd res = None <-> os_exec cmd = Exited)
  /\ (fst res = [] <-> exists msg, os_exec cmd = StartFails msg)
  /\ Forall (fun started => started = cmd) (fst res)
  /\ (List.length (fst res) <= 1)%nat.
Proof.
  cbv zeta. rewrite restartNodeBySystemdUnit_spec. unfold startAndWait.
  destruct (os_exec _) as [msg|msg|] eqn:E; simpl; repeat split;
    try discriminate; try (intros [? ?]; discriminate); eauto.
Qed.

(** X6: a restarter whose ssh arguments name no tool, as the one made by
    [NewStorageBaremetalRestarter], restarts a node through plain [ssh]: the
    operating system is handed [ssh] with [run], the ssh arguments
    unchanged, the host, then the restart command of its unit, and the
    result is what it makes of that command. *)
Theorem RestartNode_plain_ssh (r : StorageBaremetalRestarter) (node : Node) :
  Forall (fun arg => ~ In arg supportedCommands) (sshArgs (Opts r)) ->
  let cmd :=
    mkCmd "ssh"
      ("run" :: sshArgs (Opts r)
         ++ [Host node; remoteRestartCommand (systemdUnitName r)]) in
  RestartNode os_exec r node =
  match os_exec cmd with
  | StartFails msg => ([], Some (ExecError msg))
  | WaitFails msg => ([cmd], Some (ExecError msg))
  | Exited => ([cmd], None)
  end.
Proof.
  intros H. cbv zeta. unfold RestartNode.
  rewrite restartNodeBySystemdUnit_spec. unfold lastSshCommand.
  destruct (no_tool_filters _ H) as [Hf Hg]. rewrite Hf, Hg. reflexivity.
Qed.

End Outcome.

Lemma RestartNode_plain_ssh_example :
  let os_exec := fun _ : Cmd => Exited in
  let node := mkNode 1 "host-1" Storage in
  RestartNode os_exec NewStorageBaremetalRestarter node =
  ([mkCmd "ssh"
      ["run"; "host-1";
       "(test -x /bin/systemctl && sudo systemctl restart ydb-server-storage.service)"]],
   None)
  /\ RestartNode os_exec (mkRestarter (mkOpts ["-A"; "-i"; "key"] true)) node =
     ([mkCmd "ssh"
         ["run"; "-A"; "-i"; "key"; "host-1";
          "(test -x /bin/systemctl && sudo systemctl restart kikimr)"]],
      None).
Proof.
  cbv zeta. split.
  - apply (RestartNode_plain_ssh (fun _ : Cmd => Exited)
             NewStorageBaremetalRestarter (mkNode 1 "host-1" Storage)).
    constructor.
  - apply (RestartNode_plain_ssh (fun _ : Cmd => Exited)
             (mkRestarter (mkOpts ["-A"; "-i"; "key"] true))
             (mkNode 1 "host-1" Storage)).
    repeat constructor; simpl; intuition discriminate.
Defined.

Lemma append_suffix_inj (u v suffix : string) :
  String.length suffix = 1%nat ->
  (u ++ suffix)%string = (v ++ suffix)%string -> u = v.
Proof.
  destruct suffix as [|c [|d rest]]; try discriminate. intros _.
  revert v. induction u as [|a u IH]; intros [|b v] H; simpl in H.
  - reflexivity.
  - injection H as _ H. destruct v; discriminate.
  - injection H as _ H. destruct u; discriminate.
  - injection H as -> H. f_equal. now apply IH.
Qed.

(** X7: the remote command names its unit: two units never give the same
    command. *)
Theorem remoteRestartCommand_injective (unit1 unit2 : string) :
  remoteRestartCommand unit1 = remoteRestartCommand unit2 -> unit1 = unit2.
Proof.
  unfold remoteRestartCommand. intros H. simpl in H.
  repeat (injection H as H). now apply append_suffix_inj in H.
Qed.

Lemma remoteRestartCommand_injective_example :
  remoteRestartCommand "kikimr" = remoteRestartCommand "kikimr"
  /\ "kikimr" = "kikimr".
Proof.
  split; [reflexivity|].
  apply (remoteRestartCommand_injective "kikimr" "kikimr"). reflexivity.
Defined.

End RestartersMore.

(** ** Further properties of the restart options *)
Module OptionsMore.
Import Options OptionsFacts.

Local Open Scope Z_scope.

Section WithCMS.

Variable CMS : Type.
Variable CMS_Validate : CMS -> option error.

Lemma isNodeId_inv (h : string) :
  isNodeId h = true -> Strconv.Atoi h = Ok (nodeIdOf h) /\ 0 <= nodeIdOf h.
Proof.
  unfold isNodeId, nodeIdOf. destruct (Strconv.Atoi h); [|discriminate].
  intros H. apply Z.leb_le in H. now split.
Qed.

Lemma isNodeId_false (h : string) :
  isNodeId h = false ->
  isErr (Strconv.Atoi h) = true
  \/ exists id, Strconv.Atoi h = Ok id /\ id < 0.
Proof.
  unfold isNodeId. destruct (Strconv.Atoi h) as [id|e]; [|now left].
  intros H. apply Z.leb_gt in H. right. now exists id.
Qed.

Lemma idsLoop_value (rest : list string) :
  forall ids,
    Forall (fun h => isNodeId h = true) rest ->
    idsLoop rest ids = Ok (ids ++ map (fun h => uint32 (nodeIdOf h)) rest).
Proof.
  induction rest as [|h rest IH]; intros ids Hall; simpl.
  - now rewrite app_nil_r.
  - inversion Hall as [|? ? Hh Hrest]; subst.
    apply isNodeId_inv in Hh as [Hh Hpos]. rewrite Hh.
    apply Z.ltb_ge in Hpos. rewrite Hpos, IH, <- app_assoc by assumption.
    reflexivity.
Qed.

(** X8: [GetNodeIds] succeeds exactly when every entry of [Hosts] reads as a
    non-negative integer (so also on the empty list). *)
Theorem GetNodeIds_ok_iff (o : RestartOptions CMS) :
  isOk (GetNodeIds o) = true
  <-> Forall (fun h => isNodeId h = true) (Hosts o).
Proof.
  unfold GetNodeIds. split.
  - intros Hok. apply Forall_forall. intros h Hin.
    destruct (isNodeId h) eqn:E; [reflexivity|].
    assert (Hex : Exists (fun h => isErr (Strconv.Atoi h) = true
                            \/ exists id, Strconv.Atoi h = Ok id /\ id < 0)
                    (Hosts o)).
    { apply Exists_exists. exists h. split; [exact Hin|].
      now apply isNodeId_false. }
    apply (idsLoop_err (Hosts o) []) in Hex.
    unfold isErr in Hex. rewrite Hok in Hex. discriminate.
  - intros Hall. now rewrite idsLoop_value.
Qed.

(** X9: when every entry reads as a non-negative integer, [GetNodeIds]
    returns one id per entry, in the order of [Hosts]: the integer read,
    reduced to 32 bits. *)
Theorem GetNodeIds_value (o : RestartOptions CMS) :
  Forall (fun h => isNodeId h = true) (Hosts o) ->
  GetNodeIds o = Ok (map (fun h => uint32 (nodeIdOf h)) (Hosts o)).
Proof. intros Hall. unfold GetNodeIds. now rewrite idsLoop_value. Qed.

(** X10: when every entry reads as an integer from [0] to [2^32 - 1],
    [GetNodeIds] returns exactly the integers read, in the order of
    [Hosts]. *)
Theorem GetNodeIds_exact (o : RestartOptions CMS) :
  Forall (fun h => isNodeId h = true /\ nodeIdOf h < 2 ^ 32) (Hosts o) ->
  GetNodeIds o = Ok (map nodeIdOf (Hosts o)).
Proof.
  intros Hall. rewrite GetNodeIds_value.
  - f_equal. apply map_ext_in. intros h Hin.
    rewrite Forall_forall in Hall. destruct (Hall h Hin) as [Hid Hlt].
    apply isNodeId_inv in Hid as [_ Hpos].
    unfold uint32. apply Z.mod_small. lia.
  - eapply Forall_impl; [|exact Hall]. now intros h [Hid _].
Qed.

(** X11: [GetNodeFQDNs] succeeds exactly when [url.Parse] accepts every
    entry of [Hosts], and what it then returns is [Hosts] itself. *)
Theorem GetNodeFQDNs_ok_iff (o : RestartOptions CMS) :
  (isOk (GetNodeFQDNs o) = true
   <-> Forall (fun h => isOk (URL.Parse h) = true) (Hosts o))
  /\ (forall hosts, GetNodeFQDNs o = Ok hosts -> hosts = Hosts o).
Proof.
  unfold GetNodeFQDNs.
  assert (Hdec : Forall (fun h => isOk (URL.Parse h) = true) (Hosts o)
                 \/ Exists (fun h => isErr (URL.Parse h) = true) (Hosts o)).
  { induction (Hosts o) as [|h l IH]; [left; constructor|].
    destruct (isOk (URL.Parse h)) eqn:E.
    - destruct IH as [IH|IH]; [left; now constructor|right; now constructor].
    - right. constructor. unfold isErr. now rewrite E. }
  destruct Hdec as [Hall|Hex].
  - rewrite (fqdnsLoop_ok (Hosts o) [] Hall). simpl. split.
    + tauto.
    + intros hosts H. now injection H.
  - pose proof (fqdnsLoop_err (Hosts o) [] Hex) as Herr.
    unfold isErr in Herr. destruct (fqdnsLoop (Hosts o) []); [discriminate|].
    split; [|discriminate]. split; [discriminate|].
    intros Hall. exfalso. apply Exists_exists in Hex as [h [Hin Hbad]].
    rewrite Forall_forall in Hall. unfold isErr in Hbad.
    rewrite (Hall h Hin) in Hbad. discriminate.
Qed.

Lemma idsLoop_first_error (good : list string) (bad : string)
    (rest : list string) :
  forall ids,
    Forall (fun h => isNodeId h = true) good ->
    isNodeId bad = false ->
    idsLoop (good ++ bad :: rest) ids =
    Err (match Strconv.Atoi bad with
         | Err err => Errorf "failed to parse node id: %+v" [ArgE err]
         | Ok id =>
             Errorf "invalid node id specified: %d, must be positive"
               [ArgD id]
         end).
Proof.
  induction good as [|h good IH]; intros ids Hgood Hbad; simpl.
  - unfold isNodeId in Hbad. destruct (Strconv.Atoi bad) as [id|e].
    + apply Z.leb_gt, Z.ltb_lt in Hbad. now rewrite Hbad.
    + reflexivity.
  - inversion Hgood as [|? ? Hh Hrest]; subst.
    apply isNodeId_inv in Hh as [Hh Hpos]. rewrite Hh.
    apply Z.ltb_ge in Hpos. rewrite Hpos. now apply IH.
Qed.

(** X12: [GetNodeIds] stops at the first entry that does not read as a
    non-negative integer and reports that entry: the parse error of
    [strconv.Atoi], or the negative integer read. *)
Theorem GetNodeIds_first_error (o : RestartOptions CMS)
    (good : list string) (bad : string) (rest : list string) :
  Hosts o = good ++ bad :: rest ->
  Forall (fun h => isNodeId h = true) good ->
  isNodeId bad = false ->
  GetNodeIds o =
  Err (match Strconv.Atoi bad with
       | Err err => Errorf "failed to parse node id: %+v" [ArgE err]
       | Ok id =>
           Errorf "invalid node id specified: %d, must be positive" [ArgD id]
       end).
Proof.
  intros Hhosts Hgood Hbad. unfold GetNodeIds. rewrite Hhosts.
  now apply idsLoop_first_error.
Qed.

Lemma fqdnsLoop_first_error (good : list string) (bad : string)
    (rest : list string) :
  forall hosts,
    Forall (fun h => isOk (URL.Parse h) = true) good ->
    isOk (URL.Parse bad) = false ->
    fqdnsLoop (good ++ bad :: rest) hosts =
    Err (Errorf "invalid host fqdn specified: %s" [ArgS bad]).
Proof.
  induction good as [|h good IH]; intros hosts Hgood Hbad; simpl.
  - destruct (URL.Parse bad); [discriminate|reflexivity].
  - inversion Hgood as [|? ? Hh Hrest]; subst.
    destruct (URL.Parse h); [|discriminate]. now apply IH.
Qed.

(** X13: [GetNodeFQDNs] stops at the first entry [url.Parse] rejects and
    names that entry in its error. *)
Theorem GetNodeFQDNs_first_error (o : RestartOptions CMS)
    (good : list string) (bad : string) (rest : list string) :
  Hosts o = good ++ bad :: rest ->
  Forall (fun h => isOk (URL.Parse h) = true) good ->
  isOk (URL.Parse bad) = false ->
  GetNodeFQDNs o = Err (Errorf "invalid host fqdn specified: %s" [ArgS bad]).
Proof.
  intros Hhosts Hgood Hbad. unfold GetNodeFQDNs. rewrite Hhosts.
  now apply fqdnsLoop_first_error.
Qed.

Lemma Validate_None_inv (o : RestartOptions CMS) :
  Validate CMS_Validate o = None <->
  In (AvailabilityMode o) AvailabilityModes
  /\ 0 <= RestartDuration o
  /\ 0 <= RestartRetryNumber o
  /\ (isOk (GetNodeIds o) = true \/ isOk (GetNodeFQDNs o) = true)
  /\ CMS_Validate (CMS_ o) = None.
Proof.
  unfold Validate. rewrite <- Contains_In.
  destruct (Util.Contains AvailabilityModes (AvailabilityMode o)); simpl;
    [|split; [discriminate|intros [H _]; discriminate]].
  destruct (RestartDuration o <? 0) eqn:Ed;
    [apply Z.ltb_lt in Ed; split; [discriminate|lia]|].
  destruct (RestartRetryNumber o <? 0) eqn:Er;
    [apply Z.ltb_lt in Er; split; [discriminate|lia]|].
  apply Z.ltb_ge in Ed, Er.
  destruct (GetNodeIds o), (GetNodeFQDNs o); simpl;
    destruct (CMS_Validate (CMS_ o)); intuition discriminate.
Qed.

(** X14: [Validate] returns [nil] exactly when the availability mode is one
    of [AvailabilityModes], both numbers are non-negative, [Hosts] parses as
    node ids or as FQDNs, and the CMS sub-options validate; and when only
    the CMS sub-options fail, it hands their error back unchanged. *)
Theorem Validate_nil_iff (o : RestartOptions CMS) :
  (Validate CMS_Validate o = None <->
   In (AvailabilityMode o) AvailabilityModes
   /\ 0 <= RestartDuration o
   /\ 0 <= RestartRetryNumber o
   /\ (isOk (GetNodeIds o) = true \/ isOk (GetNodeFQDNs o) = true)
   /\ CMS_Validate (CMS_ o) = None)
  /\ (forall err,
        In (AvailabilityMode o) AvailabilityModes ->
        0 <= RestartDuration o ->
        0 <= RestartRetryNumber o ->
        isOk (GetNodeIds o) = true \/ isOk (GetNodeFQDNs o) = true ->
        CMS_Validate (CMS_ o) = Some err ->
        Validate CMS_Validate o = Some err).
Proof.
  split; [apply Validate_None_inv|].
  intros err Hmode Hd Hr Hhosts Hcms. unfold Validate.
  apply Contains_In in Hmode. rewrite Hmode. simpl.
  apply Z.ltb_ge in Hd, Hr. rewrite Hd, Hr, Hcms.
  destruct (GetNodeIds o), (GetNodeFQDNs o); simpl in *; try reflexivity.
  destruct Hhosts; discriminate.
Qed.

(** X15: the maintenance duration is the same when [RestartDuration] and
    [RestartRetryNumber] change places, wrap-around included. *)
Theorem GetRestartDuration_symmetric (o1 o2 : RestartOptions CMS) :
  RestartDuration o1 = RestartRetryNumber o2 ->
  RestartRetryNumber o1 = RestartDuration o2 ->
  GetRestartDuration o1 = GetRestartDuration o2.
Proof.
  unfold GetRestartDuration, Time.mulDuration. intros -> ->.
  rewrite !int64_mul_l. do 2 f_equal. ring.
Qed.

(** What the bytes of a signed decimal integer are not. *)
Lemma plainByte_facts (c : ascii) :
  plainByte c = true ->
  URL.isAlpha c = false
  /\ (URL.isDigit c || (c =? "+") || (c =? "-") || (c =? "."))%char = true
  /\ ((c <? " ") || (c =? ascii_of_nat 127))%char = false
  /\ (c =? "*")%char = false
  /\ (c =? "%")%char = false
  /\ c <> "/"%char.
Proof.
  destruct c as [[] [] [] [] [] [] [] []]; intros H; vm_compute in H;
    try discriminate H; vm_compute; repeat split; discriminate.
Qed.

Lemma digitOf_isDigit (c : ascii) (d : Z) :
  Strconv.digitOf c = Some d -> URL.isDigit c = true.
Proof.
  destruct c as [[] [] [] [] [] [] [] []]; intros H; vm_compute in H;
    try discriminate H; reflexivity.
Qed.

Lemma parseDigits_digits (s : string) :
  forall n m, Strconv.parseDigits s n = Some m ->
              allBytes URL.isDigit s = true.
Proof.
  induction s as [|c s IH]; intros n m H; simpl in *; [reflexivity|].
  destruct (Strconv.digitOf c) as [d|] eqn:E; [|discriminate].
  apply digitOf_isDigit in E. rewrite E. simpl. eapply IH, H.
Qed.

Lemma allBytes_impl (p q : ascii -> bool) (s : string) :
  (forall c, p c = true -> q c = true) ->
  allBytes p s = true -> allBytes q s = true.
Proof.
  intros Hpq. induction s as [|c s IH]; simpl; [reflexivity|].
  intros H. apply andb_true_iff in H as [Hc Hs].
  now rewrite (Hpq c Hc), IH.
Qed.

Lemma parseUintLoop_digits (s : string) :
  forall n m, Strconv.parseUintLoop s n = Strconv.UintOk m ->
              allBytes URL.isDigit s = true.
Proof.
  induction s as [|c s IH]; intros n m H; [reflexivity|].
  cbn [Strconv.parseUintLoop] in H. cbv zeta in H.
  change (URL.isDigit c && allBytes URL.isDigit s = true).
  destruct (Strconv.digitOf c) as [d|] eqn:E; [|discriminate].
  apply digitOf_isDigit in E. rewrite E.
  destruct (Strconv.maxUint64 / 10 + 1 <=? n); [discriminate|].
  destruct (Strconv.maxUint64 <? n * 10 + d); [discriminate|].
  eapply IH, H.
Qed.

Lemma isDigit_plainByte (c : ascii) :
  URL.isDigit c = true -> plainByte c = true.
Proof. intros Hc. unfold plainByte. now rewrite Hc. Qed.

Lemma atoiFast_ok_plain (h : string) (id : Z) :
  Strconv.atoiFast h = Ok id ->
  nonEmpty h = true /\ allBytes plainByte h = true.
Proof.
  unfold Strconv.atoiFast. destruct h as [|c rest]; [discriminate|].
  cbv zeta. intros H. split; [reflexivity|].
  destruct ((c =? "-") || (c =? "+"))%char eqn:Esign.
  - destruct rest as [|c' rest]; [discriminate|].
    destruct (Strconv.parseDigits (String c' rest) 0) as [n|] eqn:E;
      [|discriminate].
    apply parseDigits_digits in E.
    change (plainByte c && allBytes plainByte (String c' rest) = true).
    rewrite (allBytes_impl _ _ _ isDigit_plainByte E), andb_true_r.
    unfold plainByte. apply orb_true_iff in Esign as [Es|Es]; rewrite Es;
      now rewrite ?orb_true_r.
  - destruct (Strconv.parseDigits (String c rest) 0) as [n|] eqn:E;
      [|discriminate].
    apply parseDigits_digits in E.
    exact (allBytes_impl _ _ _ isDigit_plainByte E).
Qed.

Lemma ParseUint_ok_digits (s : string) (n : Z) :
  Strconv.ParseUint s = Strconv.UintOk n -> allBytes URL.isDigit s = true.
Proof.
  unfold Strconv.ParseUint. destruct s; [discriminate|].
  apply parseUintLoop_digits.
Qed.

Lemma ParseInt_ok_plain (h : string) (id : Z) :
  Strconv.ParseInt h = Ok id ->
  nonEmpty h = true /\ allBytes plainByte h = true.
Proof.
  unfold Strconv.ParseInt. destruct h as [|c rest]; [discriminate|].
  cbv zeta. intros H. split; [reflexivity|].
  assert (Hdigits :
            allBytes URL.isDigit
              (if (c =? "+")%char then rest
               else if (c =? "-")%char then rest else String c rest) = true).
  { destruct (Strconv.ParseUint _) as [n| |] eqn:E.
    - now apply ParseUint_ok_digits in E.
    - discriminate.
    - destruct (c =? "-")%char; discriminate. }
  change (plainByte c && allBytes plainByte rest = true).
  unfold plainByte at 1.
  destruct (c =? "+")%char eqn:Eplus.
  - rewrite orb_true_r. simpl.
    exact (allBytes_impl _ _ _ isDigit_plainByte Hdigits).
  - destruct (c =? "-")%char eqn:Eminus.
    + rewrite orb_true_r. simpl.
      exact (allBytes_impl _ _ _ isDigit_plainByte Hdigits).
    + simpl in Hdigits. apply andb_true_iff in Hdigits as [Hc Hrest].
      rewrite Hc. simpl.
      exact (allBytes_impl _ _ _ isDigit_plainByte Hrest).
Qed.

(** A token [strconv.Atoi] accepts is a non-empty string of digits and
    signs. *)
Lemma Atoi_ok_plain (h : string) (id : Z) :
  Strconv.Atoi h = Ok id ->
  nonEmpty h = true /\ allBytes plainByte h = true.
Proof.
  unfold Strconv.Atoi. cbv zeta.
  destruct (Nat.ltb 0 (String.length h) && Nat.ltb (String.length h) 19)%bool.
  - apply atoiFast_ok_plain.
  - destruct (Strconv.ParseInt h) as [v|e] eqn:E.
    + intros H. injection H as <-. now apply ParseInt_ok_plain in E.
    + destruct e; discriminate.
Qed.

Lemma containsByte_plain (c : ascii) (s : string) :
  plainByte c = false -> allBytes plainByte s = true ->
  URL.containsByte c s = false.
Proof.
  intros Hc. induction s as [|d s IH]; simpl; [reflexivity|].
  intros H. apply andb_true_iff in H as [Hd Hs]. rewrite (IH Hs).
  destruct (c =? d)%char eqn:E; [|reflexivity].
  apply Ascii.eqb_eq in E. subst. congruence.
Qed.

Lemma cut_absent (c : ascii) (s : string) :
  URL.containsByte c s = false -> URL.cut c s = (s, EmptyString).
Proof.
  induction s as [|d s IH]; simpl; [reflexivity|].
  intros H. apply orb_false_iff in H as [Hd Hs].
  now rewrite Hd, (IH Hs).
Qed.

Lemma hasSuffixByte_absent (c : ascii) (s : string) :
  URL.containsByte c s = false -> URL.hasSuffixByte s c = false.
Proof.
  induction s as [|d s IH]; simpl; [reflexivity|].
  intros H. apply orb_false_iff in H as [Hd Hs].
  destruct s; [exact Hd|now apply IH].
Qed.

Lemma stringContainsCTLByte_plain (s : string) :
  allBytes plainByte s = true -> URL.stringContainsCTLByte s = false.
Proof.
  induction s as [|c s IH]; simpl; [reflexivity|].
  intros H. apply andb_true_iff in H as [Hc Hs].
  destruct (plainByte_facts c Hc) as (_ & _ & Hctl & _).
  now rewrite Hctl, (IH Hs).
Qed.

Lemma unescapeCheck_path_plain (s : string) :
  allBytes plainByte s = true ->
  URL.unescapeCheck URL.encodePath s = None.
Proof.
  induction s as [|c s IH]; [reflexivity|].
  intros H. apply andb_true_iff in H as [Hc Hs]. specialize (IH Hs).
  destruct c as [[] [] [] [] [] [] [] []]; vm_compute in Hc;
    try discriminate Hc; exact IH.
Qed.

(** Every token that reads as an integer is accepted by [url.Parse]. *)
Lemma Parse_plain (h : string) :
  nonEmpty h = true -> allBytes plainByte h = true -> URL.Parse h = Ok tt.
Proof.
  intros Hne Hplain. destruct h as [|c rest]; [discriminate|].
  pose proof Hplain as Hc. apply andb_true_iff in Hc as [Hc _].
  destruct (plainByte_facts c Hc) as (Halpha & Hsign & _ & Hstar & _ & Hslash).
  assert (Hno : forall d, plainByte d = false ->
                          URL.containsByte d (String c rest) = false)
    by (intros d Hd; now apply containsByte_plain).
  assert (Hpre : forall p, URL.hasPrefix (String c rest) (String "/" p) = false).
  { intros p. unfold URL.hasPrefix.
    change (String.prefix (String "/" p) (String c rest))
      with (if ascii_dec "/" c then String.prefix p rest else false).
    destruct (ascii_dec "/" c) as [E|E]; [now subst c|reflexivity]. }
  unfold URL.Parse. rewrite (cut_absent "#") by now apply Hno.
  assert (Hparse : URL.parse (String c rest) = None); [|now rewrite Hparse].
  unfold URL.parse.
  rewrite stringContainsCTLByte_plain by exact Hplain.
  replace (String c rest =? "*")%string with false
    by (simpl; now rewrite Hstar).
  replace (URL.getScheme (String c rest))
    with (Some (EmptyString, String c rest))
    by (unfold URL.getScheme; simpl; now rewrite Halpha, Hsign).
  cbv beta iota zeta.
  rewrite (hasSuffixByte_absent "?") by now apply Hno.
  rewrite (cut_absent "?") by now apply Hno.
  rewrite andb_false_l. unfold fst.
  rewrite !Hpre.
  rewrite (cut_absent "/") by now apply Hno.
  rewrite Hno by reflexivity.
  rewrite !andb_false_r.
  now apply unescapeCheck_path_plain.
Qed.

(** X16: a [Hosts] list that parses as node ids also parses as FQDNs,
    because [url.Parse] accepts every integer token: whenever [GetNodeIds]
    succeeds, [GetNodeFQDNs] succeeds too and returns [Hosts].  So the hosts
    check of [Validate] fails exactly when [GetNodeFQDNs] fails: for a valid
    mode and non-negative numbers, [Validate] returns its hosts error, made
    of the two parse errors, when [GetNodeFQDNs] fails, and what the CMS
    sub-options return when it succeeds. *)
Theorem GetNodeIds_ok_GetNodeFQDNs_ok (o : RestartOptions CMS) :
  (isOk (GetNodeIds o) = true -> GetNodeFQDNs o = Ok (Hosts o))
  /\ (In (AvailabilityMode o) AvailabilityModes ->
      0 <= RestartDuration o ->
      0 <= RestartRetryNumber o ->
      match GetNodeFQDNs o with
      | Ok _ => Validate CMS_Validate o = CMS_Validate (CMS_ o)
      | Err errFromFQDNs =>
          exists errFromIds,
            GetNodeIds o = Err errFromIds
            /\ Validate CMS_Validate o =
               Some (Errorf
                       "failed to parse --hosts argument as node ids (%w) or host fqdns (%w)"
                       [ArgE errFromIds; ArgE errFromFQDNs])
      end).
Proof.
  assert (Hids : isOk (GetNodeIds o) = true -> GetNodeFQDNs o = Ok (Hosts o)).
  { intros Hids. apply GetNodeIds_ok_iff in Hids.
    unfold GetNodeFQDNs. rewrite fqdnsLoop_ok; [reflexivity|].
    eapply Forall_impl; [|exact Hids]. intros h Hh.
    apply isNodeId_inv in Hh as [Hh _].
    apply Atoi_ok_plain in Hh as [Hne Hplain].
    now rewrite Parse_plain. }
  split; [exact Hids|].
  intros Hmode Hd Hr. unfold Validate.
  apply Contains_In in Hmode. rewrite Hmode. simpl.
  apply Z.ltb_ge in Hd, Hr. rewrite Hd, Hr.
  destruct (GetNodeFQDNs o) as [hosts|errFromFQDNs] eqn:Ef.
  - destruct (GetNodeIds o); simpl; now destruct (CMS_Validate (CMS_ o)).
  - destruct (GetNodeIds o) as [ids|errFromIds] eqn:Ei.
    + specialize (Hids eq_refl). discriminate.
    + exists errFromIds. split; reflexivity.
Qed.

End WithCMS.

Section Flags.

Variable CMS : Type.
Variable CMS_Validate : CMS -> option error.
Variable CMS_DefineFlags : CMS -> CMS.
Variable unicodeToUpper : string -> string.
Variable AvailabilityMode_value : string -> option Z.

(** X17: for options that [Validate] accepts, [GetAvailabilityMode] is the
    entry of the protocol's table for the mode chosen:
    [AVAILABILITY_MODE_STRONG], [AVAILABILITY_MODE_WEAK] or
    [AVAILABILITY_MODE_FORCE]. *)
Theorem GetAvailabilityMode_validated (o : RestartOptions CMS) :
  Validate CMS_Validate o = None ->
  (AvailabilityMode o = "strong"
   /\ GetAvailabilityMode unicodeToUpper AvailabilityMode_value o =
      mapIndex AvailabilityMode_value "AVAILABILITY_MODE_STRONG")
  \/ (AvailabilityMode o = "weak"
      /\ GetAvailabilityMode unicodeToUpper AvailabilityMode_value o =
         mapIndex AvailabilityMode_value "AVAILABILITY_MODE_WEAK")
  \/ (AvailabilityMode o = "force"
      /\ GetAvailabilityMode unicodeToUpper AvailabilityMode_value o =
         mapIndex AvailabilityMode_value "AVAILABILITY_MODE_FORCE").
Proof.
  intros H. apply Validate_None_inv in H as [Hmode _].
  unfold GetAvailabilityMode.
  destruct Hmode as [Hm|[Hm|[Hm|[]]]]; rewrite <- Hm.
  - left. split; reflexivity.
  - right. left. split; reflexivity.
  - right. right. split; reflexivity.
Qed.

(** X18: after [DefineFlags] the options hold the defaults: mode [strong],
    a maintenance duration of nine seconds, and the hosts and tenants they
    had; [Validate] then accepts them exactly when the hosts parse and the
    CMS sub-options, with their own flags defined, validate. *)
Theorem DefineFlags_defaults (o : RestartOptions CMS) :
  let o' := DefineFlags CMS_DefineFlags o in
  AvailabilityMode o' = "strong"
  /\ Hosts o' = Hosts o
  /\ Tenants o' = Tenants o
  /\ GetRestartDuration o' = Time.mkDuration 9 0
  /\ GetAvailabilityMode unicodeToUpper AvailabilityMode_value o' =
     mapIndex AvailabilityMode_value "AVAILABILITY_MODE_STRONG"
  /\ (Validate CMS_Validate o' = None <->
      (isOk (GetNodeIds o) = true \/ isOk (GetNodeFQDNs o) = true)
      /\ CMS_Validate (CMS_DefineFlags (CMS_ o)) = None).
Proof.
  cbv zeta. do 5 (split; [reflexivity|]). split.
  - intros H. apply Validate_None_inv in H as (_ & _ & _ & Hh & Hc).
    split; [exact Hh|exact Hc].
  - intros [Hh Hc]. apply Validate_None_inv.
    split; [simpl; auto|]. split; [discriminate|]. split; [discriminate|].
    split; [exact Hh|exact Hc].
Qed.

End Flags.

Lemma GetNodeIds_value_example :
  GetNodeIds (invocation ["7"; "4294967297"] 3 3) = Ok [7; 1].
Proof.
  apply (GetNodeIds_value unit (invocation ["7"; "4294967297"] 3 3)).
  repeat constructor.
Defined.

Lemma GetNodeIds_exact_example :
  GetNodeIds (invocation ["12"; "+3"; "-0"; "007"] 3 3) = Ok [12; 3; 0; 7].
Proof.
  apply (GetNodeIds_exact unit (invocation ["12"; "+3"; "-0"; "007"] 3 3)).
  repeat constructor.
Defined.

Lemma GetNodeIds_first_error_example :
  GetNodeIds (invocation ["1"; "-2"; "x"] 3 3) =
  Err (Errorf "invalid node id specified: %d, must be positive" [ArgD (-2)])
  /\ GetNodeIds (invocation ["1"; "99999999999999999999x"; "2"] 3 3) =
     Err (Errorf "failed to parse node id: %+v"
            [ArgE (NumError "Atoi" "99999999999999999999x"
                     Strconv.ErrRange)])
  /\ GetNodeIds (invocation ["1"; "2x"] 3 3) =
     Err (Errorf "failed to parse node id: %+v"
            [ArgE (NumError "Atoi" "2x" Strconv.ErrSyntax)]).
Proof.
  split; [|split].
  - apply (GetNodeIds_first_error unit (invocation ["1"; "-2"; "x"] 3 3)
             ["1"] "-2" ["x"]).
    + reflexivity.
    + repeat constructor.
    + reflexivity.
  - apply (GetNodeIds_first_error unit
             (invocation ["1"; "99999999999999999999x"; "2"] 3 3)
             ["1"] "99999999999999999999x" ["2"]).
    + reflexivity.
    + repeat constructor.
    + reflexivity.
  - apply (GetNodeIds_first_error unit (invocation ["1"; "2x"] 3 3)
             ["1"] "2x" []).
    + reflexivity.
    + repeat constructor.
    + reflexivity.
Defined.

Lemma GetNodeFQDNs_first_error_example :
  GetNodeFQDNs (invocation ["node1"; "10.0.0.1:22"; "100%"] 3 3) =
  Err (Errorf "invalid host fqdn specified: %s" [ArgS "10.0.0.1:22"]).
Proof.
  apply (GetNodeFQDNs_first_error unit
           (invocation ["node1"; "10.0.0.1:22"; "100%"] 3 3)
           ["node1"] "10.0.0.1:22" ["100%"]).
  - reflexivity.
  - repeat constructor.
  - reflexivity.
Defined.

Lemma GetRestartDuration_symmetric_example :
  GetRestartDuration (invocation [] 2 5) =
  GetRestartDuration (invocation [] 5 2).
Proof.
  apply (GetRestartDuration_symmetric unit (invocation [] 2 5)
           (invocation [] 5 2)); reflexivity.
Defined.

Lemma GetNodeIds_ok_GetNodeFQDNs_ok_example :
  GetNodeFQDNs (invocation ["1"; "2"] 3 3) = Ok ["1"; "2"]
  /\ Validate cmsValidates (invocation ["1"; "2"] 3 3) = None
  /\ exists errFromIds,
       GetNodeIds (invocation ["10.0.0.1:22"] 3 3) = Err errFromIds
       /\ Validate cmsValidates (invocation ["10.0.0.1:22"] 3 3) =
          Some (Errorf
                  "failed to parse --hosts argument as node ids (%w) or host fqdns (%w)"
                  [ArgE errFromIds;
                   ArgE (Errorf "invalid host fqdn specified: %s"
                           [ArgS "10.0.0.1:22"])]).
Proof.
  assert (Hmode : In "strong" AvailabilityModes) by (simpl; auto).
  split; [|split].
  - apply (proj1 (GetNodeIds_ok_GetNodeFQDNs_ok unit cmsValidates
                    (invocation ["1"; "2"] 3 3))).
    reflexivity.
  - apply (proj2 (GetNodeIds_ok_GetNodeFQDNs_ok unit cmsValidates
                    (invocation ["1"; "2"] 3 3)) Hmode);
      discriminate.
  - apply (proj2 (GetNodeIds_ok_GetNodeFQDNs_ok unit cmsValidates
                    (invocation ["10.0.0.1:22"] 3 3)) Hmode);
      discriminate.
Defined.

Lemma GetAvailabilityMode_validated_example :
  let o := mkRestartOptions tt "weak" [] [] [] 3 3 false in
  (AvailabilityMode o = "strong"
   /\ GetAvailabilityMode (fun s => s) protoAvailabilityModes o = 1)
  \/ (AvailabilityMode o = "weak"
      /\ GetAvailabilityMode (fun s => s) protoAvailabilityModes o = 2)
  \/ (AvailabilityMode o = "force"
      /\ GetAvailabilityMode (fun s => s) protoAvailabilityModes o = 3).
Proof.
  cbv zeta.
  apply (GetAvailabilityMode_validated unit cmsValidates (fun s => s)
           protoAvailabilityModes
           (mkRestartOptions tt "weak" [] [] [] 3 3 false)).
  reflexivity.
Defined.

End OptionsMore.
